(** * Access Package Resource Finder: the request handlers of [server.js]

    A shallow embedding of the three POST handlers of [src/server.js]
    ([/api/search], [/api/resolveGroup], [/api/resolveApplication]) and the
    properties of the search procedure and of the two resolvers.

    The handlers are [async] functions that talk to Microsoft Graph through a
    client and answer through [res.status(..).json(..)].  They are embedded
    in a small monad that threads the list of requests sent to the directory
    service and the handler's [results] array, and that carries JavaScript
    exceptions ([try]/[catch], a rejected [await]). *)

From Stdlib Require Import String List ZArith Bool Lia.
Import ListNotations.
Open Scope string_scope.

(** ** JavaScript values

    The values that [express.json()] puts in [req.body] and that the Graph
    client returns are parsed JSON.  [Undefined] is what reading an absent
    property gives.  Numbers are kept as integers (JSON's fractions and
    exponents are left out of the model); the handlers only test numbers for
    truthiness and strict equality. *)
Module JS.

#[local] Set Warnings "-register-all".

Inductive value : Type :=
| Undefined
| Null
| Bool (b : bool)
| Num (n : Z)
| Str (s : string)
| Obj (fields : list (string * value))
| Arr (items : list value).

(** [ToBoolean]: what [!v], [v && ..], [v || ..] and [if (v)] test. *)
Definition truthy (v : value) : bool :=
  match v with
  | Undefined | Null => false
  | Bool b => b
  | Num n => negb (n =? 0)%Z
  | Str s => negb (s =? "")
  | Obj _ | Arr _ => true
  end.

(** [a === b].  Objects and arrays compare by reference; the operands the
    handlers compare come from different parses (request body, upstream
    answer, literals), so two of them are never the same reference. *)
Definition strict_eq (a b : value) : bool :=
  match a, b with
  | Undefined, Undefined => true
  | Null, Null => true
  | Bool x, Bool y => Bool.eqb x y
  | Num x, Num y => (x =? y)%Z
  | Str x, Str y => (x =? y)
  | _, _ => false
  end.

(** [a || b] *)
Definition or_else (a b : value) : value :=
  if truthy a then a else b.

(** Whether the object has an own property [key]. *)
Definition has_own (key : string) (fields : list (string * value)) : bool :=
  existsb (fun kv => (fst kv =? key)) fields.

(** Whether [ToString(v)], which a template literal applies to each value
    it interpolates, returns a string rather than throwing.  A primitive
    converts.  A parsed object takes [Object.prototype.toString] unless it has
    an own [toString] property; that property holds JSON data, never a
    function, so the conversion goes on to [valueOf], gets no primitive, and
    throws a TypeError.  An array joins the conversions of its elements. *)
Fixpoint stringifies (v : value) : bool :=
  match v with
  | Obj fields => negb (has_own "toString" fields)
  | Arr items => forallb stringifies items
  | _ => true
  end.

End JS.

(** ** Upstream data (Microsoft Graph answers)

    The handlers read the fields below and nothing else.  A field the code
    passes through or compares is a [JS.value]; a sub-object the code guards
    against [null] is an [option].  The [id] of an access package is a string
    in Graph's schema: putting it in a request path or a log line is not
    modelled as a conversion that can throw. *)

Module Scope.
Record t := { originId : JS.value; originSystem : JS.value; displayName : JS.value }.
End Scope.

Module Role.
Record t := { displayName : JS.value }.
End Role.

Module RoleScope.
(** An element of [resourceRoleScopes] (an object): [roleScope.scope] and
    [roleScope.role]; [None] is [null] or absent. *)
Record t := { scope : option Scope.t; role : option Role.t }.
End RoleScope.

Module PackageSummary.
(** An element of [accessPackagesResponse.value] ([$select=id,displayName]). *)
Record t := { id : JS.value; displayName : JS.value }.
End PackageSummary.

Module PackageDetails.
(** [packageDetails]; [resourceRoleScopes = None] is [null] or absent. *)
Record t := {
  id : JS.value;
  displayName : JS.value;
  resourceRoleScopes : option (list RoleScope.t)
}.
End PackageDetails.

Module Group.
Record t := { id : JS.value; displayName : JS.value }.
End Group.

Module ServicePrincipal.
Record t := { id : JS.value; displayName : JS.value; appId : JS.value }.
End ServicePrincipal.

(** ** Exceptions *)

Inductive exn : Type :=
| GraphError (message : string)   (* a rejected Graph request *)
| TypeError (message : string).   (* reading a property of null/undefined *)

(** [error.message] *)
Definition message (e : exn) : string :=
  match e with GraphError m | TypeError m => m end.

(** ** The directory service

    One constructor per request the handlers build:
    - [ListAccessPackages]:
      [/identityGovernance/entitlementManagement/accessPackages], [$select=id,displayName];
    - [GetAccessPackage id]: [.../accessPackages/${id}],
      [$expand=resourceRoleScopes($expand=role,scope)];
    - [ListGroups name]: [/groups], [$filter=displayName eq '${name}'];
    - [ListServicePrincipals name]: [/servicePrincipals],
      [$filter=startswith(displayName, '${name}')]. *)
Inductive GraphRequest : Type :=
| ListAccessPackages
| GetAccessPackage (id : JS.value)
| ListGroups (groupName : JS.value)
| ListServicePrincipals (applicationName : JS.value).

(** What the directory answers to each request during one HTTP request: the
    [value] array of a collection, the object of a single package, or the
    error the client rejects with. *)
Record Directory := {
  accessPackages : exn + list PackageSummary.t;
  accessPackage : JS.value -> exn + PackageDetails.t;
  groups : JS.value -> exn + list Group.t;
  servicePrincipals : JS.value -> exn + list ServicePrincipal.t
}.

(** ** Responses *)

Record MatchRecord := {
  accessPackageName : JS.value;
  accessPackageId : JS.value;
  resourceName : JS.value;
  resourceType : JS.value;
  resourceId : JS.value;
  roleName : JS.value
}.

Record ApplicationRef := {
  objectId : JS.value;
  app_displayName : JS.value;
  app_appId : JS.value
}.

(** The object given to [res.json]. *)
Inductive Json : Type :=
| ErrorBody (error : string)                                 (* {error} *)
| ErrorDetailsBody (error : string) (details : string)       (* {error, details} *)
| SearchBody (results : list MatchRecord) (searchType searchValue : JS.value)
| GroupBody (groupId displayName : JS.value)                 (* {groupId, displayName} *)
| ApplicationBody (application : ApplicationRef)             (* applications[0] *)
| MultipleBody (applications : list ApplicationRef).         (* {multiple: true, applications} *)

Record Response := { status : nat; json : Json }.

(** [res.json(b)] answers with status 200, [res.status(n).json(b)] with [n]. *)
Definition res_json (b : Json) : Response := {| status := 200; json := b |}.
Definition res_status_json (n : nat) (b : Json) : Response := {| status := n; json := b |}.

(** ** The handler monad *)

(** What a handler changes while it runs: the requests it has sent to the
    directory service, oldest first, and its [results] array. *)
Record World := { calls : list GraphRequest; results : list MatchRecord }.

Definition Async (A : Type) : Type := World -> (exn + A) * World.

Definition ret {A} (a : A) : Async A := fun w => (inr a, w).

Definition throw {A} (e : exn) : Async A := fun w => (inl e, w).

Definition bind {A B} (c : Async A) (k : A -> Async B) : Async B :=
  fun w =>
    match c w with
    | (inl e, w') => (inl e, w')
    | (inr a, w') => k a w'
    end.

(** [try { c } catch (e) { h e }]: the changes [c] made before it threw stay. *)
Definition try_catch {A} (c : Async A) (h : exn -> Async A) : Async A :=
  fun w =>
    match c w with
    | (inl e, w') => h e w'
    | (inr a, w') => (inr a, w')
    end.

Declare Scope async_scope.
Delimit Scope async_scope with async.
Notation "x <- c ;; k" := (bind c (fun x => k))
  (at level 61, c at next level, right associativity) : async_scope.
Notation "c ;; k" := (bind c (fun _ => k))
  (at level 61, right associativity) : async_scope.
Open Scope async_scope.

(** [await graphClient.api(..)...get()]: the request is sent, and the answer
    is the value of the [await] or the exception it throws. *)
Definition graph_get {A} (rq : GraphRequest) (answer : exn + A) : Async A :=
  fun w => (answer, {| calls := calls w ++ [rq]; results := results w |}).

(** [const results = []] *)
Definition new_results : Async unit :=
  fun w => (inr tt, {| calls := calls w; results := [] |}).

(** [results.push(r)] *)
Definition results_push (r : MatchRecord) : Async unit :=
  fun w => (inr tt, {| calls := calls w; results := results w ++ [r] |}).

(** reading [results] *)
Definition get_results : Async (list MatchRecord) :=
  fun w => (inr (results w), w).

(** Evaluating a template literal that interpolates [vs], left to right.
    The text it builds (a console line, a filter) is not part of the state;
    the conversion of a value to a string can throw. *)
Definition template (vs : list JS.value) : Async unit :=
  if forallb JS.stringifies vs
  then ret tt
  else throw (TypeError "Cannot convert object to primitive value").

(** A handler starts with nothing sent. *)
Definition run {A} (c : Async A) : (exn + A) * World :=
  c {| calls := []; results := [] |}.

(** ** POST /api/search *)

Module SearchRequest.
(** [const { searchType, searchValue } = req.body]: the two properties read
    off the parsed JSON body; a property the body lacks reads as [JS.Undefined]. *)
Record t := { searchType : JS.value; searchValue : JS.value }.
End SearchRequest.

(** The [switch (searchType)] of the inner loop: the value of [isMatch]. *)
Definition isMatch (searchType searchValue : JS.value) (scope : option Scope.t) : bool :=
  if JS.strict_eq searchType (JS.Str "application") then
    match scope with
    | Some s => JS.strict_eq (Scope.originId s) searchValue
                && JS.strict_eq (Scope.originSystem s) (JS.Str "AadApplication")
    | None => false
    end
  else if JS.strict_eq searchType (JS.Str "group") then
    match scope with
    | Some s => JS.strict_eq (Scope.originId s) searchValue
                && JS.strict_eq (Scope.originSystem s) (JS.Str "AadGroup")
    | None => false
    end
  else if JS.strict_eq searchType (JS.Str "sharepoint") then
    match scope with
    | Some s => JS.strict_eq (Scope.originId s) searchValue
                && JS.strict_eq (Scope.originSystem s) (JS.Str "SharePointOnline")
    | None => false
    end
  else false.

(** [role?.displayName] *)
Definition role_displayName (role : option Role.t) : JS.value :=
  match role with
  | Some r => Role.displayName r
  | None => JS.Undefined
  end.

(** The object literal pushed on a match, for a scope that is an object. *)
Definition matchRecord (packageDetails : PackageDetails.t)
    (s : Scope.t) (role : option Role.t) : MatchRecord :=
  {| accessPackageName := PackageDetails.displayName packageDetails;
     accessPackageId := PackageDetails.id packageDetails;
     resourceName := JS.or_else (Scope.displayName s) (JS.Str "N/A");
     resourceType := Scope.originSystem s;
     resourceId := Scope.originId s;
     roleName := JS.or_else (role_displayName role) (JS.Str "N/A") |}.

(** Evaluating that literal: [scope.displayName] on a [null] scope throws. *)
Definition makeRecord (packageDetails : PackageDetails.t)
    (scope : option Scope.t) (role : option Role.t) : Async MatchRecord :=
  match scope with
  | None => throw (TypeError "Cannot read properties of null (reading 'displayName')")
  | Some s => ret (matchRecord packageDetails s role)
  end.

(** [for (const roleScope of packageDetails.resourceRoleScopes) { .. }] *)
Fixpoint forEachRoleScope (searchType searchValue : JS.value)
    (packageDetails : PackageDetails.t) (roleScopes : list RoleScope.t) : Async unit :=
  match roleScopes with
  | [] => ret tt
  | roleScope :: rest =>
      let scope := RoleScope.scope roleScope in
      let role := RoleScope.role roleScope in
      (if isMatch searchType searchValue scope
       then r <- makeRecord packageDetails scope role ;; results_push r
       else ret tt) ;;
      forEachRoleScope searchType searchValue packageDetails rest
  end.

(** The body of the outer loop's [try]. *)
Definition processPackage (d : Directory) (searchType searchValue : JS.value)
    (pkg : PackageSummary.t) : Async unit :=
  packageDetails <- graph_get (GetAccessPackage (PackageSummary.id pkg))
                              (accessPackage d (PackageSummary.id pkg)) ;;
  match PackageDetails.resourceRoleScopes packageDetails with
  | None => ret tt                                   (* !resourceRoleScopes: continue *)
  | Some [] => ret tt                                (* length === 0: continue *)
  | Some roleScopes => forEachRoleScope searchType searchValue packageDetails roleScopes
  end.

(** [for (const pkg of accessPackagesResponse.value) { try {..} catch (pkgError) {..} }] *)
Fixpoint forEachPackage (d : Directory) (searchType searchValue : JS.value)
    (pkgs : list PackageSummary.t) : Async unit :=
  match pkgs with
  | [] => ret tt
  | pkg :: rest =>
      try_catch (processPackage d searchType searchValue pkg)
                (fun pkgError => ret tt) ;;
      forEachPackage d searchType searchValue rest
  end.

Definition post_api_search (d : Directory) (body : SearchRequest.t) : Async Response :=
  try_catch
    (let searchType := SearchRequest.searchType body in
     let searchValue := SearchRequest.searchValue body in
     if negb (JS.truthy searchType) || negb (JS.truthy searchValue)
     then ret (res_status_json 400 (ErrorBody "Missing searchType or searchValue"))
     else
       template [searchType; searchValue] ;;      (* console.log(`Searching for ..`) *)
       new_results ;;
       accessPackagesResponse <- graph_get ListAccessPackages (accessPackages d) ;;
       forEachPackage d searchType searchValue accessPackagesResponse ;;
       results <- get_results ;;
       ret (res_json (SearchBody results searchType searchValue)))
    (fun error =>
       ret (res_status_json 500
              (ErrorDetailsBody "Failed to search access packages" (message error)))).

(** ** POST /api/resolveGroup *)

Module GroupRequest.
(** [const { groupName } = req.body] *)
Record t := { groupName : JS.value }.
End GroupRequest.

Definition post_api_resolveGroup (d : Directory) (body : GroupRequest.t) : Async Response :=
  try_catch
    (let groupName := GroupRequest.groupName body in
     if negb (JS.truthy groupName)
     then ret (res_status_json 400 (ErrorBody "Missing groupName"))
     else
       template [groupName] ;;                    (* console.log(`Resolving group: ..`) *)
       template [groupName] ;;                    (* .filter(`displayName eq '..'`) *)
       groups_value <- graph_get (ListGroups groupName) (groups d groupName) ;;
       match groups_value with
       | [] => ret (res_status_json 404 (ErrorBody "Group not found"))
       | g :: _ => ret (res_json (GroupBody (Group.id g) (Group.displayName g)))
       end)
    (fun error =>
       ret (res_status_json 500
              (ErrorDetailsBody "Failed to resolve group" (message error)))).

(** ** POST /api/resolveApplication *)

Module ApplicationRequest.
(** [const { applicationName } = req.body] *)
Record t := { applicationName : JS.value }.
End ApplicationRequest.

(** The arrow function given to [servicePrincipals.value.map]. *)
Definition toApplication (sp : ServicePrincipal.t) : ApplicationRef :=
  {| objectId := ServicePrincipal.id sp;
     app_displayName := ServicePrincipal.displayName sp;
     app_appId := ServicePrincipal.appId sp |}.

Definition post_api_resolveApplication (d : Directory) (body : ApplicationRequest.t)
    : Async Response :=
  try_catch
    (let applicationName := ApplicationRequest.applicationName body in
     if negb (JS.truthy applicationName)
     then ret (res_status_json 400 (ErrorBody "Missing applicationName"))
     else
       template [applicationName] ;;              (* console.log(`Resolving application: ..`) *)
       template [applicationName] ;;              (* .filter(`startswith(displayName, '..')`) *)
       servicePrincipals_value <-
         graph_get (ListServicePrincipals applicationName)
                   (servicePrincipals d applicationName) ;;
       match servicePrincipals_value with
       | [] => ret (res_status_json 404 (ErrorBody "Application not found"))
       | _ :: _ =>
           let applications := map toApplication servicePrincipals_value in
           match applications with
           | [a] => ret (res_json (ApplicationBody a))          (* length === 1 *)
           | _ => ret (res_json (MultipleBody applications))
           end
       end)
    (fun error =>
       ret (res_status_json 500
              (ErrorDetailsBody "Failed to resolve application" (message error)))).

(** ** The environment: [getGraphClient] and GET /api/health *)

Module Env.
(** [process.env]: a variable is a string, or [None] when it is not set. *)
Record t := { WEBSITE_INSTANCE_ID : option string }.

(** Reading [process.env.X]. *)
Definition read (x : option string) : JS.value :=
  match x with
  | Some s => JS.Str s
  | None => JS.Undefined
  end.
End Env.

Inductive Credential : Type :=
| ManagedIdentityCredential     (* running in Azure App Service *)
| DefaultAzureCredential.       (* running locally *)

(** The client [Client.initWithMiddleware] builds: the credential behind its
    auth provider and the scopes that provider asks tokens for. *)
Record GraphClient := { credential : Credential; scopes : list string }.

Definition getGraphClient (env : Env.t) : GraphClient :=
  let credential :=
    if JS.truthy (Env.read (Env.WEBSITE_INSTANCE_ID env))
    then ManagedIdentityCredential
    else DefaultAzureCredential in
  {| credential := credential;
     scopes := ["https://graph.microsoft.com/.default"] |}.

(** The body of the health answer: {status, environment}. *)
Record Health := { health_status : string; environment : string }.

(** [app.get('/api/health', ..)]: [res.json] of the body, so status 200. *)
Definition get_api_health (env : Env.t) : nat * Health :=
  (200,
   {| health_status := "healthy";
      environment :=
        if JS.truthy (Env.read (Env.WEBSITE_INSTANCE_ID env))
        then "Azure App Service"
        else "Local Development" |}).

(** * Notions used in the statements *)

(** The origin-system tag that [switch (searchType)] tests the scope against
    in the case of that search type; no tag outside the three cases. *)
Definition originSystemFor (searchType : JS.value) : option string :=
  if JS.strict_eq searchType (JS.Str "application") then Some "AadApplication"
  else if JS.strict_eq searchType (JS.Str "group") then Some "AadGroup"
  else if JS.strict_eq searchType (JS.Str "sharepoint") then Some "SharePointOnline"
  else None.

(** The records one package's scopes add to [results], in order. *)
Definition roleScopeMatches (searchType searchValue : JS.value)
    (packageDetails : PackageDetails.t) (roleScope : RoleScope.t) : list MatchRecord :=
  match RoleScope.scope roleScope with
  | Some s =>
      if isMatch searchType searchValue (Some s)
      then [matchRecord packageDetails s (RoleScope.role roleScope)]
      else []
  | None => []
  end.

Definition packageMatches (searchType searchValue : JS.value)
    (packageDetails : PackageDetails.t) : list MatchRecord :=
  match PackageDetails.resourceRoleScopes packageDetails with
  | Some roleScopes => flat_map (roleScopeMatches searchType searchValue packageDetails) roleScopes
  | None => []
  end.

(** What one catalog entry adds to [results]: nothing when its detail fetch
    is rejected, the matches of its details otherwise. *)
Definition contribution (d : Directory) (searchType searchValue : JS.value)
    (pkg : PackageSummary.t) : list MatchRecord :=
  match accessPackage d (PackageSummary.id pkg) with
  | inl _ => []
  | inr packageDetails => packageMatches searchType searchValue packageDetails
  end.

(** The detail requests the outer loop sends, one per catalog entry. *)
Definition detailRequests (pkgs : list PackageSummary.t) : list GraphRequest :=
  map (fun pkg => GetAccessPackage (PackageSummary.id pkg)) pkgs.

(** ** A small tenant, for the concrete checks below *)
Module Demo.

Definition str := JS.Str.

Definition salesGroup : Scope.t :=
  {| Scope.originId := str "g1"; Scope.originSystem := str "AadGroup";
     Scope.displayName := str "Sales Group" |}.
Definition unnamedGroup : Scope.t :=
  {| Scope.originId := str "g1"; Scope.originSystem := str "AadGroup";
     Scope.displayName := JS.Undefined |}.
Definition longerId : Scope.t :=
  {| Scope.originId := str "g1-extended"; Scope.originSystem := str "AadGroup";
     Scope.displayName := str "Other Group" |}.
Definition upperId : Scope.t :=
  {| Scope.originId := str "G1"; Scope.originSystem := str "AadGroup";
     Scope.displayName := str "Upper Group" |}.
Definition foreign : Scope.t :=
  {| Scope.originId := str "g1"; Scope.originSystem := str "DirectoryRole";
     Scope.displayName := str "Some Role" |}.
Definition portal : Scope.t :=
  {| Scope.originId := str "sp1"; Scope.originSystem := str "AadApplication";
     Scope.displayName := str "Contoso Portal" |}.

Definition member : Role.t := {| Role.displayName := str "Member" |}.

Definition with_role (s : Scope.t) : RoleScope.t :=
  {| RoleScope.scope := Some s; RoleScope.role := Some member |}.
Definition bare (s : Scope.t) : RoleScope.t :=
  {| RoleScope.scope := Some s; RoleScope.role := None |}.
Definition no_scope : RoleScope.t :=
  {| RoleScope.scope := None; RoleScope.role := Some member |}.

Definition summary (i n : string) : PackageSummary.t :=
  {| PackageSummary.id := str i; PackageSummary.displayName := str n |}.
Definition details (i n : string) (rs : option (list RoleScope.t)) : PackageDetails.t :=
  {| PackageDetails.id := str i; PackageDetails.displayName := str n;
     PackageDetails.resourceRoleScopes := rs |}.

(** Package A holds the sales group, B is empty, C cannot be read, D mixes a
    scope-less entry, near misses and a second hit, E has no collection. *)
Definition catalog : list PackageSummary.t :=
  [summary "A" "Package A"; summary "B" "Package B"; summary "C" "Package C";
   summary "D" "Package D"; summary "E" "Package E"].

Definition lookup (i : JS.value) : exn + PackageDetails.t :=
  if JS.strict_eq i (str "A") then inr (details "A" "Package A" (Some [with_role salesGroup]))
  else if JS.strict_eq i (str "B") then inr (details "B" "Package B" (Some []))
  else if JS.strict_eq i (str "D") then
    inr (details "D" "Package D"
           (Some [no_scope; bare longerId; bare upperId; bare foreign;
                  bare unnamedGroup; with_role portal]))
  else if JS.strict_eq i (str "E") then inr (details "E" "Package E" None)
  else inl (GraphError "Forbidden").

Definition alpha : Group.t :=
  {| Group.id := str "grp-1"; Group.displayName := str "Team Alpha" |}.
Definition twin1 : Group.t :=
  {| Group.id := str "grp-2"; Group.displayName := str "Twins" |}.
Definition twin2 : Group.t :=
  {| Group.id := str "grp-3"; Group.displayName := str "Twins" |}.

Definition contosoApp : ServicePrincipal.t :=
  {| ServicePrincipal.id := str "sp0"; ServicePrincipal.displayName := str "Contoso App";
     ServicePrincipal.appId := str "app0" |}.
Definition contosoPortal : ServicePrincipal.t :=
  {| ServicePrincipal.id := str "sp1"; ServicePrincipal.displayName := str "Contoso Portal";
     ServicePrincipal.appId := str "app1" |}.

Definition tenant : Directory :=
  {| accessPackages := inr catalog;
     accessPackage := lookup;
     groups := fun n =>
       if JS.strict_eq n (str "Team Alpha") then inr [alpha]
       else if JS.strict_eq n (str "Twins") then inr [twin1; twin2]
       else inr [];
     servicePrincipals := fun n =>
       if JS.strict_eq n (str "Contoso") then inr [contosoApp; contosoPortal]
       else if JS.strict_eq n (str "Contoso P") then inr [contosoPortal]
       else inr [] |}.

(** The same tenant with the directory service down. *)
Definition offline : Directory :=
  {| accessPackages := inl (GraphError "Service unavailable");
     accessPackage := fun _ => inl (GraphError "Service unavailable");
     groups := fun _ => inl (GraphError "Service unavailable");
     servicePrincipals := fun _ => inl (GraphError "Service unavailable") |}.

Definition search (t v : string) : SearchRequest.t :=
  {| SearchRequest.searchType := str t; SearchRequest.searchValue := str v |}.

(** The body [{}]. *)
Definition empty_body : SearchRequest.t :=
  {| SearchRequest.searchType := JS.Undefined; SearchRequest.searchValue := JS.Undefined |}.

End Demo.

(** The specification's table from search types to origin systems. *)
Inductive mappedOriginSystem : JS.value -> string -> Prop :=
| mapped_application : mappedOriginSystem (JS.Str "application") "AadApplication"
| mapped_group : mappedOriginSystem (JS.Str "group") "AadGroup"
| mapped_sharepoint : mappedOriginSystem (JS.Str "sharepoint") "SharePointOnline".

(** The closed set of origin systems the matcher recognises. *)
Definition recognised (originSystem : JS.value) : Prop :=
  originSystem = JS.Str "AadApplication" \/
  originSystem = JS.Str "AadGroup" \/
  originSystem = JS.Str "SharePointOnline".

(** The response a handler sends, if it sends one. *)
Definition response {A} (c : Async A) : exn + A := fst (run c).

(** The requests a handler has sent to the directory service when it ends. *)
Definition sent {A} (c : Async A) : list GraphRequest := calls (snd (run c)).

(** The [results] field of a search response (empty for any other body). *)
Definition found (r : exn + Response) : list MatchRecord :=
  match r with
  | inr {| json := SearchBody rs _ _ |} => rs
  | _ => []
  end.

(** The directory with another catalog listing. *)
Definition with_catalog (d : Directory) (pkgs : list PackageSummary.t) : Directory :=
  {| accessPackages := inr pkgs;
     accessPackage := accessPackage d;
     groups := groups d;
     servicePrincipals := servicePrincipals d |}.



(** The demo tenant after package C has become readable, with no collection. *)
Definition repaired_tenant : Directory :=
  {| accessPackages := accessPackages Demo.tenant;
     accessPackage := fun i =>
       if JS.strict_eq i (JS.Str "C")
       then inr (Demo.details "C" "Package C" None)
       else accessPackage Demo.tenant i;
     groups := groups Demo.tenant;
     servicePrincipals := servicePrincipals Demo.tenant |}.

(** A parsed JSON object with an own [toString] property: the body
    {"toString": "x"}. *)
Definition odd_object : JS.value := JS.Obj [("toString", JS.Str "x")].

(** The status of a response, if there is one. *)
Definition status_of (r : exn + Response) : option nat :=
  match r with
  | inr resp => Some (status resp)
  | inl _ => None
  end.

(** A role scope that adds no record: no collection, or an empty one. *)
Definition no_role_scopes (packageDetails : PackageDetails.t) : Prop :=
  PackageDetails.resourceRoleScopes packageDetails = None \/
  PackageDetails.resourceRoleScopes packageDetails = Some [].

(** * Properties *)

(** ** Strict equality *)

Lemma strict_eq_true_eq (a b : JS.value) : JS.strict_eq a b = true -> a = b.
Proof.
  destruct a, b; simpl; try discriminate; try reflexivity; intros E.
  - apply Bool.eqb_prop in E. now subst.
  - apply Z.eqb_eq in E. now subst.
  - apply String.eqb_eq in E. now subst.
Qed.

Lemma strict_eq_Str (x : JS.value) (s : string) :
  JS.strict_eq x (JS.Str s) = true <-> x = JS.Str s.
Proof.
  split.
  - apply strict_eq_true_eq.
  - intros ->. simpl. apply String.eqb_refl.
Qed.

Lemma strict_eq_Str_false (x : JS.value) (s : string) :
  x <> JS.Str s -> JS.strict_eq x (JS.Str s) = false.
Proof.
  intros N. destruct (JS.strict_eq x (JS.Str s)) eqn:E; [|reflexivity].
  apply strict_eq_Str in E. contradiction.
Qed.

(** ** The matcher *)

Lemma isMatch_spec (searchType searchValue : JS.value) (scope : option Scope.t) :
  isMatch searchType searchValue scope = true <->
  exists s tag,
    scope = Some s /\
    originSystemFor searchType = Some tag /\
    JS.strict_eq (Scope.originId s) searchValue = true /\
    Scope.originSystem s = JS.Str tag.
Proof.
  unfold isMatch, originSystemFor.
  destruct (JS.strict_eq searchType (JS.Str "application"));
    [|destruct (JS.strict_eq searchType (JS.Str "group"));
      [|destruct (JS.strict_eq searchType (JS.Str "sharepoint"))]].
  1-3: split;
    [ destruct scope as [s|]; [|discriminate]; intros H;
      apply andb_true_iff in H; destruct H as [H1 H2];
      apply strict_eq_Str in H2; eauto 10
    | intros (s & tag & -> & T & H1 & H2); injection T as <-;
      rewrite H1, H2; reflexivity ].
  split; [discriminate|]. intros (s & tag & _ & T & _). discriminate.
Qed.

Lemma isMatch_None (searchType searchValue : JS.value) :
  isMatch searchType searchValue None = false.
Proof.
  unfold isMatch.
  repeat match goal with |- context [if ?c then _ else _] => destruct c end; reflexivity.
Qed.

(** The inner loop never throws; it appends the matching records. *)
Lemma forEachRoleScope_run searchType searchValue packageDetails roleScopes w :
  forEachRoleScope searchType searchValue packageDetails roleScopes w =
  (inr tt,
   {| calls := calls w;
      results := results w ++
        flat_map (roleScopeMatches searchType searchValue packageDetails) roleScopes |}).
Proof.
  revert w. induction roleScopes as [|rs rest IH]; intros w.
  - simpl. rewrite app_nil_r. destruct w; reflexivity.
  - cbn [forEachRoleScope flat_map]. unfold bind at 1. unfold roleScopeMatches at 1.
    destruct (RoleScope.scope rs) as [s|].
    + destruct (isMatch searchType searchValue (Some s)).
      * cbn. rewrite IH. cbn. now rewrite <- app_assoc.
      * cbn. rewrite IH. reflexivity.
    + rewrite isMatch_None. cbn. rewrite IH. reflexivity.
Qed.

Lemma try_processPackage_run d searchType searchValue pkg w :
  try_catch (processPackage d searchType searchValue pkg) (fun _ => ret tt) w =
  (inr tt,
   {| calls := calls w ++ [GetAccessPackage (PackageSummary.id pkg)];
      results := results w ++ contribution d searchType searchValue pkg |}).
Proof.
  unfold try_catch, processPackage, bind, graph_get, contribution, packageMatches.
  destruct (accessPackage d (PackageSummary.id pkg)) as [e|pd].
  - cbn. now rewrite app_nil_r.
  - destruct (PackageDetails.resourceRoleScopes pd) as [[|rs rest]|].
    + cbn. now rewrite app_nil_r.
    + rewrite forEachRoleScope_run. reflexivity.
    + cbn. now rewrite app_nil_r.
Qed.

Lemma forEachPackage_run d searchType searchValue pkgs w :
  forEachPackage d searchType searchValue pkgs w =
  (inr tt,
   {| calls := calls w ++ detailRequests pkgs;
      results := results w ++ flat_map (contribution d searchType searchValue) pkgs |}).
Proof.
  revert w. induction pkgs as [|pkg rest IH]; intros w.
  - cbn. rewrite !app_nil_r. destruct w; reflexivity.
  - cbn [forEachPackage]. unfold bind at 1. rewrite try_processPackage_run.
    rewrite IH. cbn. now rewrite <- !app_assoc.
Qed.

(** The three ways a search request ends. *)
Lemma search_invalid d body :
  JS.truthy (SearchRequest.searchType body) = false \/
  JS.truthy (SearchRequest.searchValue body) = false ->
  run (post_api_search d body) =
  (inr (res_status_json 400 (ErrorBody "Missing searchType or searchValue")),
   {| calls := []; results := [] |}).
Proof.
  intros H. unfold run, post_api_search, try_catch.
  destruct H as [-> | ->]; cbn; [|rewrite orb_true_r]; reflexivity.
Qed.

Lemma template_ok vs w :
  forallb JS.stringifies vs = true -> template vs w = (inr tt, w).
Proof. unfold template. now intros ->. Qed.

Lemma template_throws vs w :
  forallb JS.stringifies vs = false ->
  template vs w = (inl (TypeError "Cannot convert object to primitive value"), w).
Proof. unfold template. now intros ->. Qed.

Lemma search_unprintable d body :
  JS.truthy (SearchRequest.searchType body) = true ->
  JS.truthy (SearchRequest.searchValue body) = true ->
  JS.stringifies (SearchRequest.searchType body) = false \/
  JS.stringifies (SearchRequest.searchValue body) = false ->
  run (post_api_search d body) =
  (inr (res_status_json 500
          (ErrorDetailsBody "Failed to search access packages"
                            "Cannot convert object to primitive value")),
   {| calls := []; results := [] |}).
Proof.
  intros T V H.
  unfold run, post_api_search, try_catch, bind. rewrite T, V. cbn [negb orb].
  rewrite template_throws; [reflexivity|].
  cbn [forallb]. destruct H as [-> | ->]; [reflexivity|].
  rewrite andb_false_r. reflexivity.
Qed.

Lemma search_catalog_failed d body e :
  JS.truthy (SearchRequest.searchType body) = true ->
  JS.truthy (SearchRequest.searchValue body) = true ->
  JS.stringifies (SearchRequest.searchType body) = true ->
  JS.stringifies (SearchRequest.searchValue body) = true ->
  accessPackages d = inl e ->
  run (post_api_search d body) =
  (inr (res_status_json 500
          (ErrorDetailsBody "Failed to search access packages" (message e))),
   {| calls := [ListAccessPackages]; results := [] |}).
Proof.
  intros T V P Q E.
  unfold run, post_api_search, try_catch, bind. rewrite T, V. cbn [negb orb].
  rewrite template_ok by (cbn [forallb]; now rewrite P, Q).
  unfold new_results, graph_get. rewrite E. reflexivity.
Qed.

Lemma search_ok d body pkgs :
  JS.truthy (SearchRequest.searchType body) = true ->
  JS.truthy (SearchRequest.searchValue body) = true ->
  JS.stringifies (SearchRequest.searchType body) = true ->
  JS.stringifies (SearchRequest.searchValue body) = true ->
  accessPackages d = inr pkgs ->
  let found := flat_map (contribution d (SearchRequest.searchType body)
                                        (SearchRequest.searchValue body)) pkgs in
  run (post_api_search d body) =
  (inr (res_json (SearchBody found (SearchRequest.searchType body)
                                   (SearchRequest.searchValue body))),
   {| calls := ListAccessPackages :: detailRequests pkgs; results := found |}).
Proof.
  intros T V P Q E found.
  unfold run, post_api_search, try_catch, bind. rewrite T, V. cbn [negb orb].
  rewrite template_ok by (cbn [forallb]; now rewrite P, Q).
  unfold new_results, graph_get, get_results. rewrite E.
  cbn -[forEachPackage]. rewrite forEachPackage_run. reflexivity.
Qed.

Lemma originSystemFor_mapped (searchType : JS.value) (tag : string) :
  originSystemFor searchType = Some tag <-> mappedOriginSystem searchType tag.
Proof.
  unfold originSystemFor. split.
  - destruct (JS.strict_eq searchType (JS.Str "application")) eqn:A.
    { apply strict_eq_Str in A. subst. intros [= <-]. constructor. }
    destruct (JS.strict_eq searchType (JS.Str "group")) eqn:G.
    { apply strict_eq_Str in G. subst. intros [= <-]. constructor. }
    destruct (JS.strict_eq searchType (JS.Str "sharepoint")) eqn:S.
    { apply strict_eq_Str in S. subst. intros [= <-]. constructor. }
    discriminate.
  - intros []; reflexivity.
Qed.

Lemma mapped_recognised (searchType : JS.value) (tag : string) :
  mappedOriginSystem searchType tag -> recognised (JS.Str tag).
Proof. intros []; unfold recognised; auto. Qed.

Lemma isMatch_unrecognised searchType searchValue (s : Scope.t) :
  ~ recognised (Scope.originSystem s) ->
  isMatch searchType searchValue (Some s) = false.
Proof.
  intros N. destruct (isMatch searchType searchValue (Some s)) eqn:M; [|reflexivity].
  apply isMatch_spec in M. destruct M as (s' & tag & [= <-] & T & _ & O).
  apply originSystemFor_mapped, mapped_recognised in T. rewrite <- O in T. contradiction.
Qed.

Lemma forEachRoleScope_app searchType searchValue packageDetails pre post w :
  forEachRoleScope searchType searchValue packageDetails (pre ++ post) w =
  (inr tt,
   {| calls := calls w;
      results := results w ++
        flat_map (roleScopeMatches searchType searchValue packageDetails) pre ++
        flat_map (roleScopeMatches searchType searchValue packageDetails) post |}).
Proof. now rewrite forEachRoleScope_run, flat_map_app. Qed.

(** A role scope that adds no record can be dropped from the collection. *)
Lemma forEachRoleScope_skip searchType searchValue packageDetails pre rs post w :
  roleScopeMatches searchType searchValue packageDetails rs = [] ->
  forEachRoleScope searchType searchValue packageDetails (pre ++ rs :: post) w =
  forEachRoleScope searchType searchValue packageDetails (pre ++ post) w.
Proof.
  intros E. rewrite !forEachRoleScope_app. cbn [flat_map]. now rewrite E.
Qed.

(** C1. Exact-match invariant of the matcher.  For a role scope examined by
    the search with a string [searchValue]: [isMatch] holds if and only if the
    scope is an object whose [originId] is exactly that string and whose
    [originSystem] is the tag mapped from [searchType] (application ->
    AadApplication, group -> AadGroup, sharepoint -> SharePointOnline); the
    loop pushes one record in that case and none otherwise.  A scope whose
    [originSystem] is outside the three tags does not match, whatever the
    search, and the loop goes on without throwing. *)
Theorem matcher_exact_match
    (searchType : JS.value) (searchValue : string)
    (packageDetails : PackageDetails.t) (roleScope : RoleScope.t) (w : World) :
  (isMatch searchType (JS.Str searchValue) (RoleScope.scope roleScope) = true <->
   exists s tag,
     RoleScope.scope roleScope = Some s /\
     Scope.originId s = JS.Str searchValue /\
     mappedOriginSystem searchType tag /\
     Scope.originSystem s = JS.Str tag) /\
  (exists pushed,
     forEachRoleScope searchType (JS.Str searchValue) packageDetails [roleScope] w =
       (inr tt, {| calls := calls w; results := results w ++ pushed |}) /\
     (isMatch searchType (JS.Str searchValue) (RoleScope.scope roleScope) = true ->
      length pushed = 1) /\
     (isMatch searchType (JS.Str searchValue) (RoleScope.scope roleScope) = false ->
      pushed = [])) /\
  (forall s anyType anyValue pre post,
     RoleScope.scope roleScope = Some s ->
     ~ recognised (Scope.originSystem s) ->
     isMatch anyType anyValue (Some s) = false /\
     forEachRoleScope anyType anyValue packageDetails (pre ++ roleScope :: post) w =
       forEachRoleScope anyType anyValue packageDetails (pre ++ post) w /\
     fst (forEachRoleScope anyType anyValue packageDetails (pre ++ roleScope :: post) w) =
       inr tt).
Proof.
  split; [|split].
  - rewrite isMatch_spec. split.
    + intros (s & tag & S & T & I & O). exists s, tag.
      apply strict_eq_Str in I. apply originSystemFor_mapped in T. auto.
    + intros (s & tag & S & I & T & O). exists s, tag.
      apply strict_eq_Str in I. apply originSystemFor_mapped in T. auto.
  - exists (roleScopeMatches searchType (JS.Str searchValue) packageDetails roleScope).
    rewrite forEachRoleScope_run. cbn [flat_map]. rewrite app_nil_r.
    split; [reflexivity|]. unfold roleScopeMatches.
    destruct (RoleScope.scope roleScope) as [s|].
    + split; intros ->; reflexivity.
    + split; [rewrite isMatch_None; discriminate | reflexivity].
  - intros s anyType anyValue pre post S N.
    pose proof (isMatch_unrecognised anyType anyValue s N) as M.
    assert (roleScopeMatches anyType anyValue packageDetails roleScope = []) as E.
    { unfold roleScopeMatches. rewrite S, M. reflexivity. }
    split; [exact M|]. split.
    + now apply forEachRoleScope_skip.
    + now rewrite forEachRoleScope_run.
Qed.

(** On the demo data: the sales group matches a group search for "g1"; an
    identifier that only starts with "g1", or differs in case, does not; and
    a scope of an unknown origin system is passed over. *)
Lemma matcher_exact_match_witness :
  isMatch (JS.Str "group") (JS.Str "g1") (Some Demo.salesGroup) = true /\
  isMatch (JS.Str "group") (JS.Str "g1") (Some Demo.longerId) = false /\
  isMatch (JS.Str "group") (JS.Str "g1") (Some Demo.upperId) = false /\
  isMatch (JS.Str "group") (JS.Str "g1") (Some Demo.foreign) = false /\
  fst (forEachRoleScope (JS.Str "group") (JS.Str "g1")
         (Demo.details "D" "Package D" None)
         ([Demo.with_role Demo.salesGroup] ++ Demo.bare Demo.foreign :: [])
         {| calls := []; results := [] |}) = inr tt.
Proof.
  pose proof (matcher_exact_match (JS.Str "group") "g1"
                (Demo.details "D" "Package D" None) (Demo.bare Demo.foreign)
                {| calls := []; results := [] |}) as (_ & _ & H).
  specialize (H Demo.foreign (JS.Str "group") (JS.Str "g1")
                [Demo.with_role Demo.salesGroup] [] eq_refl).
  destruct H as (H1 & _ & H3).
  - unfold recognised. cbn. intros [E | [E | E]]; discriminate E.
  - repeat split; try reflexivity; assumption.
Defined.

(** ** Reading a handler's outcome *)






(** ** The resolvers *)

Lemma resolveApplication_run d body sps :
  JS.truthy (ApplicationRequest.applicationName body) = true ->
  JS.stringifies (ApplicationRequest.applicationName body) = true ->
  servicePrincipals d (ApplicationRequest.applicationName body) = inr sps ->
  run (post_api_resolveApplication d body) =
  (inr match sps with
       | [] => res_status_json 404 (ErrorBody "Application not found")
       | [sp] => res_json (ApplicationBody (toApplication sp))
       | _ => res_json (MultipleBody (map toApplication sps))
       end,
   {| calls := [ListServicePrincipals (ApplicationRequest.applicationName body)];
      results := [] |}).
Proof.
  intros T P E. unfold run, post_api_resolveApplication, try_catch, bind. rewrite T.
  cbn [negb]. rewrite !template_ok by (cbn [forallb]; now rewrite P).
  unfold graph_get. rewrite E. destruct sps as [|sp [|sp' rest]]; reflexivity.
Qed.

Lemma resolveGroup_run d body gs :
  JS.truthy (GroupRequest.groupName body) = true ->
  JS.stringifies (GroupRequest.groupName body) = true ->
  groups d (GroupRequest.groupName body) = inr gs ->
  run (post_api_resolveGroup d body) =
  (inr match gs with
       | [] => res_status_json 404 (ErrorBody "Group not found")
       | g :: _ => res_json (GroupBody (Group.id g) (Group.displayName g))
       end,
   {| calls := [ListGroups (GroupRequest.groupName body)]; results := [] |}).
Proof.
  intros T P E. unfold run, post_api_resolveGroup, try_catch, bind. rewrite T.
  cbn [negb]. rewrite !template_ok by (cbn [forallb]; now rewrite P).
  unfold graph_get. rewrite E. destruct gs; reflexivity.
Qed.

(** C3. Application resolver cardinality.  For a request with a name prefix
    (a truthy [applicationName] that converts to a string, as every non-empty
    string does), when the directory answers the prefix query for that name
    with the service principals [sps]: no
    principal gives 404 "Application not found"; exactly one gives 200 with
    the single record {objectId, displayName, appId} of that principal; two or
    more give 200 with {multiple: true, applications} where [applications]
    has one such record per principal, in the directory's order. *)
Theorem resolveApplication_cardinality
    (d : Directory) (body : ApplicationRequest.t) (sps : list ServicePrincipal.t) :
  JS.truthy (ApplicationRequest.applicationName body) = true ->
  JS.stringifies (ApplicationRequest.applicationName body) = true ->
  servicePrincipals d (ApplicationRequest.applicationName body) = inr sps ->
  (sps = [] ->
   response (post_api_resolveApplication d body) =
     inr {| status := 404; json := ErrorBody "Application not found" |}) /\
  (forall sp, sps = [sp] ->
   response (post_api_resolveApplication d body) =
     inr {| status := 200;
            json := ApplicationBody
                      {| objectId := ServicePrincipal.id sp;
                         app_displayName := ServicePrincipal.displayName sp;
                         app_appId := ServicePrincipal.appId sp |} |}) /\
  (2 <= length sps ->
   exists applications,
     response (post_api_resolveApplication d body) =
       inr {| status := 200; json := MultipleBody applications |} /\
     length applications = length sps /\
     forall i sp, nth_error sps i = Some sp ->
       nth_error applications i =
         Some {| objectId := ServicePrincipal.id sp;
                 app_displayName := ServicePrincipal.displayName sp;
                 app_appId := ServicePrincipal.appId sp |}).
Proof.
  intros T P E. unfold response. rewrite (resolveApplication_run d body sps T P E). cbn [fst].
  split; [|split].
  - intros ->. reflexivity.
  - intros sp ->. reflexivity.
  - intros L. exists (map toApplication sps). split; [|split].
    + destruct sps as [|a [|b rest]]; cbn in L; try lia. reflexivity.
    + apply length_map.
    + intros i sp H. rewrite nth_error_map, H. reflexivity.
Qed.

(** "Contoso" is the prefix of two service principals of the demo tenant. *)
Lemma resolveApplication_cardinality_witness :
  exists applications,
    response (post_api_resolveApplication Demo.tenant
                {| ApplicationRequest.applicationName := JS.Str "Contoso" |}) =
      inr {| status := 200; json := MultipleBody applications |} /\
    length applications = 2.
Proof.
  destruct (resolveApplication_cardinality Demo.tenant
              {| ApplicationRequest.applicationName := JS.Str "Contoso" |}
              [Demo.contosoApp; Demo.contosoPortal] eq_refl eq_refl eq_refl)
    as (_ & _ & H).
  destruct H as (applications & R & L & _); [cbn; lia|].
  exists applications. split; [exact R | exact L].
Defined.

(** C4. Group resolver.  For a request with a group name (a truthy
    [groupName] that converts to a string, as every non-empty string does),
    when the directory answers the exact-name query with the groups [gs]: no
    group gives 404 "Group not found"; one or more give 200 with the
    {groupId, displayName} of the first group in the directory's order,
    whatever follows it. *)
Theorem resolveGroup_first_match
    (d : Directory) (body : GroupRequest.t) (gs : list Group.t) :
  JS.truthy (GroupRequest.groupName body) = true ->
  JS.stringifies (GroupRequest.groupName body) = true ->
  groups d (GroupRequest.groupName body) = inr gs ->
  (gs = [] ->
   response (post_api_resolveGroup d body) =
     inr {| status := 404; json := ErrorBody "Group not found" |}) /\
  (forall g others, gs = g :: others ->
   response (post_api_resolveGroup d body) =
     inr {| status := 200;
            json := GroupBody (Group.id g) (Group.displayName g) |}).
Proof.
  intros T P E. unfold response. rewrite (resolveGroup_run d body gs T P E). cbn [fst].
  split.
  - intros ->. reflexivity.
  - intros g others ->. reflexivity.
Qed.

(** Two groups of the demo tenant are called "Twins"; the first is returned. *)
Lemma resolveGroup_first_match_witness :
  response (post_api_resolveGroup Demo.tenant
              {| GroupRequest.groupName := JS.Str "Twins" |}) =
    inr {| status := 200; json := GroupBody (JS.Str "grp-2") (JS.Str "Twins") |} /\
  response (post_api_resolveGroup Demo.tenant
              {| GroupRequest.groupName := JS.Str "Nobody" |}) =
    inr {| status := 404; json := ErrorBody "Group not found" |}.
Proof.
  split.
  - exact (proj2 (resolveGroup_first_match Demo.tenant
                    {| GroupRequest.groupName := JS.Str "Twins" |}
                    [Demo.twin1; Demo.twin2] eq_refl eq_refl eq_refl)
                 Demo.twin1 [Demo.twin2] eq_refl).
  - exact (proj1 (resolveGroup_first_match Demo.tenant
                    {| GroupRequest.groupName := JS.Str "Nobody" |}
                    [] eq_refl eq_refl eq_refl) eq_refl).
Defined.

(** ** Failure and validation of a search *)

(** C5. A failed catalog fetch is fatal.  When the search sends its catalog
    request (both fields are truthy and convert to strings, as every non-empty
    string does) and the directory rejects it with [e], the response is 500
    with the body {error: "Failed to search access packages", details:
    e.message}; the body carries no results, and no package detail is
    requested. *)
Theorem catalog_failure_is_fatal
    (d : Directory) (body : SearchRequest.t) (e : exn) :
  JS.truthy (SearchRequest.searchType body) = true ->
  JS.truthy (SearchRequest.searchValue body) = true ->
  JS.stringifies (SearchRequest.searchType body) = true ->
  JS.stringifies (SearchRequest.searchValue body) = true ->
  accessPackages d = inl e ->
  response (post_api_search d body) =
    inr {| status := 500;
           json := ErrorDetailsBody "Failed to search access packages" (message e) |} /\
  found (response (post_api_search d body)) = [] /\
  sent (post_api_search d body) = [ListAccessPackages].
Proof.
  intros T V P Q E. unfold response, sent.
  rewrite (search_catalog_failed d body e T V P Q E). repeat split.
Qed.

Lemma catalog_failure_is_fatal_witness :
  response (post_api_search Demo.offline (Demo.search "group" "g1")) =
    inr {| status := 500;
           json := ErrorDetailsBody "Failed to search access packages"
                                    "Service unavailable" |}.
Proof.
  exact (proj1 (catalog_failure_is_fatal Demo.offline (Demo.search "group" "g1")
                  (GraphError "Service unavailable")
                  eq_refl eq_refl eq_refl eq_refl eq_refl)).
Defined.

(** C6. Validation precedes any upstream interaction.  A search whose body
    lacks [searchType] or [searchValue] (the property reads as [undefined])
    is answered 400 "Missing searchType or searchValue" and no request is sent
    to the directory service, whatever the directory would have answered. *)
Theorem missing_field_rejected_before_upstream
    (d : Directory) (body : SearchRequest.t) :
  SearchRequest.searchType body = JS.Undefined \/
  SearchRequest.searchValue body = JS.Undefined ->
  response (post_api_search d body) =
    inr {| status := 400; json := ErrorBody "Missing searchType or searchValue" |} /\
  sent (post_api_search d body) = [].
Proof.
  intros H. unfold response, sent. rewrite search_invalid.
  - split; reflexivity.
  - destruct H as [-> | ->]; auto.
Qed.

(** The body [{}]. *)
Lemma missing_field_rejected_before_upstream_witness :
  response (post_api_search Demo.tenant Demo.empty_body) =
    inr {| status := 400; json := ErrorBody "Missing searchType or searchValue" |} /\
  sent (post_api_search Demo.tenant Demo.empty_body) = [].
Proof.
  exact (missing_field_rejected_before_upstream Demo.tenant Demo.empty_body
           (or_introl eq_refl)).
Defined.

(** ** Search types outside the three cases *)








(** ** Packages without role scopes *)



(** ** When the directory is called *)

Lemma resolveGroup_invalid d body :
  JS.truthy (GroupRequest.groupName body) = false ->
  run (post_api_resolveGroup d body) =
  (inr (res_status_json 400 (ErrorBody "Missing groupName")),
   {| calls := []; results := [] |}).
Proof.
  intros T. unfold run, post_api_resolveGroup, try_catch. now rewrite T.
Qed.

Lemma resolveGroup_unprintable d body :
  JS.truthy (GroupRequest.groupName body) = true ->
  JS.stringifies (GroupRequest.groupName body) = false ->
  run (post_api_resolveGroup d body) =
  (inr (res_status_json 500
          (ErrorDetailsBody "Failed to resolve group"
                            "Cannot convert object to primitive value")),
   {| calls := []; results := [] |}).
Proof.
  intros T P. unfold run, post_api_resolveGroup, try_catch, bind. rewrite T.
  cbn [negb]. rewrite template_throws by (cbn [forallb]; now rewrite P).
  reflexivity.
Qed.

Lemma resolveGroup_failed d body e :
  JS.truthy (GroupRequest.groupName body) = true ->
  JS.stringifies (GroupRequest.groupName body) = true ->
  groups d (GroupRequest.groupName body) = inl e ->
  run (post_api_resolveGroup d body) =
  (inr (res_status_json 500 (ErrorDetailsBody "Failed to resolve group" (message e))),
   {| calls := [ListGroups (GroupRequest.groupName body)]; results := [] |}).
Proof.
  intros T P E. unfold run, post_api_resolveGroup, try_catch, bind. rewrite T.
  cbn [negb]. rewrite !template_ok by (cbn [forallb]; now rewrite P).
  unfold graph_get. now rewrite E.
Qed.

Lemma resolveApplication_invalid d body :
  JS.truthy (ApplicationRequest.applicationName body) = false ->
  run (post_api_resolveApplication d body) =
  (inr (res_status_json 400 (ErrorBody "Missing applicationName")),
   {| calls := []; results := [] |}).
Proof.
  intros T. unfold run, post_api_resolveApplication, try_catch. now rewrite T.
Qed.

Lemma resolveApplication_unprintable d body :
  JS.truthy (ApplicationRequest.applicationName body) = true ->
  JS.stringifies (ApplicationRequest.applicationName body) = false ->
  run (post_api_resolveApplication d body) =
  (inr (res_status_json 500
          (ErrorDetailsBody "Failed to resolve application"
                            "Cannot convert object to primitive value")),
   {| calls := []; results := [] |}).
Proof.
  intros T P. unfold run, post_api_resolveApplication, try_catch, bind. rewrite T.
  cbn [negb]. rewrite template_throws by (cbn [forallb]; now rewrite P).
  reflexivity.
Qed.

Lemma resolveApplication_failed d body e :
  JS.truthy (ApplicationRequest.applicationName body) = true ->
  JS.stringifies (ApplicationRequest.applicationName body) = true ->
  servicePrincipals d (ApplicationRequest.applicationName body) = inl e ->
  run (post_api_resolveApplication d body) =
  (inr (res_status_json 500
          (ErrorDetailsBody "Failed to resolve application" (message e))),
   {| calls := [ListServicePrincipals (ApplicationRequest.applicationName body)];
      results := [] |}).
Proof.
  intros T P E. unfold run, post_api_resolveApplication, try_catch, bind. rewrite T.
  cbn [negb]. rewrite !template_ok by (cbn [forallb]; now rewrite P).
  unfold graph_get. now rewrite E.
Qed.

Lemma search_400_sends_nothing d body r :
  response (post_api_search d body) = inr r -> status r = 400 ->
  sent (post_api_search d body) = [].
Proof.
  unfold response, sent.
  destruct (JS.truthy (SearchRequest.searchType body)) eqn:T;
    [destruct (JS.truthy (SearchRequest.searchValue body)) eqn:V|].
  - destruct (JS.stringifies (SearchRequest.searchType body)) eqn:P;
      [destruct (JS.stringifies (SearchRequest.searchValue body)) eqn:Q|];
      [| rewrite search_unprintable by auto; intros [= <-]; discriminate | rewrite search_unprintable by auto; intros [= <-]; discriminate].
    destruct (accessPackages d) as [e|pkgs] eqn:E.
    + rewrite (search_catalog_failed d body e T V P Q E). intros [= <-]. discriminate.
    + rewrite (search_ok d body pkgs T V P Q E). intros [= <-]. discriminate.
  - rewrite search_invalid; auto.
  - rewrite search_invalid; auto.
Qed.

Lemma resolveGroup_by_status d body r :
  response (post_api_resolveGroup d body) = inr r ->
  (status r = 400 -> sent (post_api_resolveGroup d body) = []) /\
  (status r = 404 ->
   sent (post_api_resolveGroup d body) = [ListGroups (GroupRequest.groupName body)] /\
   groups d (GroupRequest.groupName body) = inr []).
Proof.
  unfold response, sent.
  destruct (JS.truthy (GroupRequest.groupName body)) eqn:T.
  - destruct (JS.stringifies (GroupRequest.groupName body)) eqn:P;
      [| rewrite (resolveGroup_unprintable d body T P); intros [= <-];
         split; discriminate].
    destruct (groups d (GroupRequest.groupName body)) as [e|gs] eqn:E.
    + rewrite (resolveGroup_failed d body e T P E). intros [= <-].
      split; discriminate.
    + rewrite (resolveGroup_run d body gs T P E). destruct gs as [|g rest].
      * intros [= <-]. split; [discriminate|]. intros _. split; reflexivity.
      * intros [= <-]. split; discriminate.
  - rewrite (resolveGroup_invalid d body T). intros [= <-].
    split; [reflexivity|discriminate].
Qed.

Lemma resolveApplication_by_status d body r :
  response (post_api_resolveApplication d body) = inr r ->
  (status r = 400 -> sent (post_api_resolveApplication d body) = []) /\
  (status r = 404 ->
   sent (post_api_resolveApplication d body) =
     [ListServicePrincipals (ApplicationRequest.applicationName body)] /\
   servicePrincipals d (ApplicationRequest.applicationName body) = inr []).
Proof.
  unfold response, sent.
  destruct (JS.truthy (ApplicationRequest.applicationName body)) eqn:T.
  - destruct (JS.stringifies (ApplicationRequest.applicationName body)) eqn:P;
      [| rewrite (resolveApplication_unprintable d body T P); intros [= <-];
         split; discriminate].
    destruct (servicePrincipals d (ApplicationRequest.applicationName body))
      as [e|sps] eqn:E.
    + rewrite (resolveApplication_failed d body e T P E). intros [= <-].
      split; discriminate.
    + rewrite (resolveApplication_run d body sps T P E).
      destruct sps as [|sp [|sp' rest]].
      * intros [= <-]. split; [discriminate|]. intros _. split; reflexivity.
      * intros [= <-]. split; discriminate.
      * intros [= <-]. split; discriminate.
  - rewrite (resolveApplication_invalid d body T). intros [= <-].
    split; [reflexivity|discriminate].
Qed.

(** C9, as amended.  A validation error (400) of any of the three handlers
    is produced before any request is sent to the directory service.  A
    not-found error (404) of a resolver is produced after exactly one request,
    the resolver's list query, which the directory answered with an empty
    list. *)
Theorem errors_and_upstream_calls (d : Directory) :
  (forall body r,
     response (post_api_search d body) = inr r -> status r = 400 ->
     sent (post_api_search d body) = []) /\
  (forall body r,
     response (post_api_resolveGroup d body) = inr r -> status r = 400 ->
     sent (post_api_resolveGroup d body) = []) /\
  (forall body r,
     response (post_api_resolveApplication d body) = inr r -> status r = 400 ->
     sent (post_api_resolveApplication d body) = []) /\
  (forall body r,
     response (post_api_resolveGroup d body) = inr r -> status r = 404 ->
     sent (post_api_resolveGroup d body) = [ListGroups (GroupRequest.groupName body)] /\
     groups d (GroupRequest.groupName body) = inr []) /\
  (forall body r,
     response (post_api_resolveApplication d body) = inr r -> status r = 404 ->
     sent (post_api_resolveApplication d body) =
       [ListServicePrincipals (ApplicationRequest.applicationName body)] /\
     servicePrincipals d (ApplicationRequest.applicationName body) = inr []).
Proof.
  split; [|split; [|split; [|split]]]; intros body r H S.
  - exact (search_400_sends_nothing d body r H S).
  - exact (proj1 (resolveGroup_by_status d body r H) S).
  - exact (proj1 (resolveApplication_by_status d body r H) S).
  - exact (proj2 (resolveGroup_by_status d body r H) S).
  - exact (proj2 (resolveApplication_by_status d body r H) S).
Qed.

(** No group of the demo tenant is called "Nobody": 404 after the one query;
    a body without [groupName]: 400 and nothing sent. *)
Lemma errors_and_upstream_calls_witness :
  sent (post_api_resolveGroup Demo.tenant {| GroupRequest.groupName := JS.Str "Nobody" |}) =
    [ListGroups (JS.Str "Nobody")] /\
  sent (post_api_resolveGroup Demo.tenant {| GroupRequest.groupName := JS.Undefined |}) = [].
Proof.
  destruct (errors_and_upstream_calls Demo.tenant) as (_ & G400 & _ & G404 & _).
  split.
  - exact (proj1 (G404 {| GroupRequest.groupName := JS.Str "Nobody" |}
                       {| status := 404; json := ErrorBody "Group not found" |}
                       eq_refl eq_refl)).
  - exact (G400 {| GroupRequest.groupName := JS.Undefined |}
                {| status := 400; json := ErrorBody "Missing groupName" |}
                eq_refl eq_refl).
Defined.

(** C9 as first stated fails: the 404 of a resolver comes after the
    directory has been queried, not before. *)
Lemma not_found_follows_upstream_call :
  response (post_api_resolveGroup Demo.tenant
              {| GroupRequest.groupName := JS.Str "Nobody" |}) =
    inr {| status := 404; json := ErrorBody "Group not found" |} /\
  sent (post_api_resolveGroup Demo.tenant
          {| GroupRequest.groupName := JS.Str "Nobody" |}) =
    [ListGroups (JS.Str "Nobody")] /\
  response (post_api_resolveApplication Demo.tenant
              {| ApplicationRequest.applicationName := JS.Str "Fabrikam" |}) =
    inr {| status := 404; json := ErrorBody "Application not found" |} /\
  sent (post_api_resolveApplication Demo.tenant
          {| ApplicationRequest.applicationName := JS.Str "Fabrikam" |}) =
    [ListServicePrincipals (JS.Str "Fabrikam")] /\
  ~ (forall (d : Directory) (body : GroupRequest.t) (r : Response),
       response (post_api_resolveGroup d body) = inr r -> status r = 404 ->
       sent (post_api_resolveGroup d body) = []).
Proof.
  repeat split.
  intros H.
  specialize (H Demo.tenant {| GroupRequest.groupName := JS.Str "Nobody" |}
                {| status := 404; json := ErrorBody "Group not found" |}
                eq_refl eq_refl).
  discriminate H.
Qed.

(** ** What a match record is made of *)

Lemma roleScopeMatches_inv searchType searchValue packageDetails roleScope r :
  In r (roleScopeMatches searchType searchValue packageDetails roleScope) ->
  exists s,
    RoleScope.scope roleScope = Some s /\
    isMatch searchType searchValue (Some s) = true /\
    r = matchRecord packageDetails s (RoleScope.role roleScope).
Proof.
  unfold roleScopeMatches. destruct (RoleScope.scope roleScope) as [s|]; [|intros []].
  destruct (isMatch searchType searchValue (Some s)) eqn:M; [|intros []].
  intros [<- | []]. exists s. auto.
Qed.

Lemma contribution_inv d searchType searchValue pkg r :
  In r (contribution d searchType searchValue pkg) ->
  exists packageDetails roleScopes roleScope s,
    accessPackage d (PackageSummary.id pkg) = inr packageDetails /\
    PackageDetails.resourceRoleScopes packageDetails = Some roleScopes /\
    In roleScope roleScopes /\
    RoleScope.scope roleScope = Some s /\
    isMatch searchType searchValue (Some s) = true /\
    r = matchRecord packageDetails s (RoleScope.role roleScope).
Proof.
  unfold contribution, packageMatches.
  destruct (accessPackage d (PackageSummary.id pkg)) as [e|pd]; [intros []|].
  destruct (PackageDetails.resourceRoleScopes pd) as [rss|] eqn:R; [|intros []].
  intros H. apply in_flat_map in H. destruct H as (rs & I & H).
  apply roleScopeMatches_inv in H. destruct H as (s & S & M & ->).
  exists pd, rss, rs, s. auto 10.
Qed.

Lemma found_inv d body r :
  In r (found (response (post_api_search d body))) ->
  exists pkgs pkg,
    accessPackages d = inr pkgs /\ In pkg pkgs /\
    In r (contribution d (SearchRequest.searchType body)
                         (SearchRequest.searchValue body) pkg).
Proof.
  unfold response.
  destruct (JS.truthy (SearchRequest.searchType body)) eqn:T;
    [destruct (JS.truthy (SearchRequest.searchValue body)) eqn:V|].
  - destruct (JS.stringifies (SearchRequest.searchType body)) eqn:P;
      [destruct (JS.stringifies (SearchRequest.searchValue body)) eqn:Q|];
      [| rewrite search_unprintable by auto; intros [] | rewrite search_unprintable by auto; intros []].
    destruct (accessPackages d) as [e|pkgs] eqn:E.
    + rewrite (search_catalog_failed d body e T V P Q E). intros [].
    + rewrite (search_ok d body pkgs T V P Q E). cbn [fst found res_json json].
      intros H. apply in_flat_map in H. destruct H as (pkg & I & H).
      exists pkgs, pkg. auto.
  - rewrite search_invalid; auto. intros [].
  - rewrite search_invalid; auto. intros [].
Qed.

(** C10. Invariant of the search output.  Every record of the results list
    of a search response has [resourceId] equal to the request's
    [searchValue] and [resourceType] equal to the origin-system tag mapped
    from the request's [searchType], and is the record built from a role
    scope of a listed package whose [scope] is an object.  A role scope whose
    [scope] is null does not match, adds nothing, and the loop goes on
    without throwing. *)
Theorem search_output_invariant (d : Directory) (body : SearchRequest.t) :
  Forall
    (fun r =>
       resourceId r = SearchRequest.searchValue body /\
       (exists tag,
          mappedOriginSystem (SearchRequest.searchType body) tag /\
          resourceType r = JS.Str tag) /\
       (exists pkgs pkg packageDetails roleScopes roleScope s,
          accessPackages d = inr pkgs /\ In pkg pkgs /\
          accessPackage d (PackageSummary.id pkg) = inr packageDetails /\
          PackageDetails.resourceRoleScopes packageDetails = Some roleScopes /\
          In roleScope roleScopes /\
          RoleScope.scope roleScope = Some s /\
          r = matchRecord packageDetails s (RoleScope.role roleScope)))
    (found (response (post_api_search d body))) /\
  (forall packageDetails before roleScope after w,
     RoleScope.scope roleScope = None ->
     isMatch (SearchRequest.searchType body) (SearchRequest.searchValue body)
             (RoleScope.scope roleScope) = false /\
     forEachRoleScope (SearchRequest.searchType body) (SearchRequest.searchValue body)
                      packageDetails (before ++ roleScope :: after) w =
     forEachRoleScope (SearchRequest.searchType body) (SearchRequest.searchValue body)
                      packageDetails (before ++ after) w /\
     fst (forEachRoleScope (SearchRequest.searchType body)
                           (SearchRequest.searchValue body)
                           packageDetails (before ++ roleScope :: after) w) = inr tt).
Proof.
  split.
  - apply Forall_forall. intros r H.
    apply found_inv in H. destruct H as (pkgs & pkg & E & I & H).
    apply contribution_inv in H.
    destruct H as (pd & rss & rs & s & F & R & Irs & S & M & ->).
    apply isMatch_spec in M. destruct M as (s' & tag & [= <-] & T & Eq & O).
    split; [|split].
    + cbn. now apply strict_eq_true_eq.
    + exists tag. split; [now apply originSystemFor_mapped | exact O].
    + exists pkgs, pkg, pd, rss, rs, s. auto 10.
  - intros pd before rs after w S. rewrite S, isMatch_None.
    split; [reflexivity|]. split.
    + apply forEachRoleScope_skip. unfold roleScopeMatches. now rewrite S.
    + now rewrite forEachRoleScope_run.
Qed.

(** Package D of the demo tenant starts with a role scope without scope; the
    group search finds two records, both for "g1" in AadGroup. *)
Lemma search_output_invariant_witness :
  Forall (fun r => resourceId r = JS.Str "g1" /\ resourceType r = JS.Str "AadGroup")
         (found (response (post_api_search Demo.tenant (Demo.search "group" "g1")))) /\
  length (found (response (post_api_search Demo.tenant (Demo.search "group" "g1")))) = 2 /\
  fst (forEachRoleScope (JS.Str "group") (JS.Str "g1")
         (Demo.details "D" "Package D" None)
         ([] ++ Demo.no_scope :: [Demo.bare Demo.unnamedGroup])
         {| calls := []; results := [] |}) = inr tt.
Proof.
  destruct (search_output_invariant Demo.tenant (Demo.search "group" "g1")) as [A N].
  split; [|split].
  - eapply Forall_impl; [|exact A]. cbn beta.
    intros r (I & (tag & M & T) & _). split; [exact I|].
    rewrite T. inversion M. reflexivity.
  - reflexivity.
  - exact (proj2 (proj2 (N (Demo.details "D" "Package D" None) []
                           Demo.no_scope [Demo.bare Demo.unnamedGroup]
                           {| calls := []; results := [] |} eq_refl))).
Defined.

(** * Further properties of the handlers *)

(** ** The search as a whole *)





(** Every string converts, and so does every other primitive. *)
Lemma string_stringifies (x : string) : JS.stringifies (JS.Str x) = true.
Proof. reflexivity. Qed.





Lemma or_else_placeholder_truthy (v : JS.value) :
  JS.truthy (JS.or_else v (JS.Str "N/A")) = true.
Proof.
  unfold JS.or_else. destruct (JS.truthy v) eqn:T; [exact T | reflexivity].
Qed.

(** X5. No record of a search response lacks a name: [resourceName] and
    [roleName] are truthy in every record, the placeholder "N/A" standing in
    for a display name that is absent, null or empty and for a role scope
    without role. *)
Theorem records_never_lack_names (d : Directory) (body : SearchRequest.t) :
  Forall (fun r => JS.truthy (resourceName r) = true /\ JS.truthy (roleName r) = true)
         (found (response (post_api_search d body))).
Proof.
  apply Forall_forall. intros r H.
  apply found_inv in H. destruct H as (pkgs & pkg & _ & _ & H).
  apply contribution_inv in H.
  destruct H as (pd & rss & rs & s & _ & _ & _ & _ & _ & ->).
  cbn. split; apply or_else_placeholder_truthy.
Qed.

Lemma flat_map_agree {A B} (f g : A -> list B) (l : list A) :
  (forall x, In x l -> f x = g x) -> flat_map f l = flat_map g l.
Proof.
  induction l as [|x rest IH]; intros H; [reflexivity|].
  cbn [flat_map]. rewrite (H x (or_introl eq_refl)), IH; [reflexivity|].
  intros y I. apply H. now right.
Qed.

Lemma contribution_agree d1 d2 searchType searchValue pkg :
  accessPackage d1 (PackageSummary.id pkg) = accessPackage d2 (PackageSummary.id pkg) \/
  (exists e packageDetails,
     accessPackage d1 (PackageSummary.id pkg) = inl e /\
     accessPackage d2 (PackageSummary.id pkg) = inr packageDetails /\
     no_role_scopes packageDetails) ->
  contribution d1 searchType searchValue pkg = contribution d2 searchType searchValue pkg.
Proof.
  unfold contribution. intros [-> | (e & pd & -> & -> & N)]; [reflexivity|].
  unfold packageMatches. destruct N as [-> | ->]; reflexivity.
Qed.

(** X6. A package that cannot be read looks like a package without role
    scopes: if two directories list the same catalog and answer every listed
    package alike, except that where the first rejects the detail fetch the
    second returns a package with a null or empty collection, then a search
    gets the same response from both and sends the same requests. *)
Theorem unreadable_package_looks_empty
    (d1 d2 : Directory) (body : SearchRequest.t) (pkgs : list PackageSummary.t) :
  accessPackages d1 = inr pkgs ->
  accessPackages d2 = inr pkgs ->
  (forall pkg, In pkg pkgs ->
     accessPackage d1 (PackageSummary.id pkg) = accessPackage d2 (PackageSummary.id pkg) \/
     (exists e packageDetails,
        accessPackage d1 (PackageSummary.id pkg) = inl e /\
        accessPackage d2 (PackageSummary.id pkg) = inr packageDetails /\
        no_role_scopes packageDetails)) ->
  response (post_api_search d1 body) = response (post_api_search d2 body) /\
  sent (post_api_search d1 body) = sent (post_api_search d2 body).
Proof.
  intros E1 E2 A. unfold response, sent.
  destruct (JS.truthy (SearchRequest.searchType body)) eqn:T;
    [destruct (JS.truthy (SearchRequest.searchValue body)) eqn:V|].
  - destruct (JS.stringifies (SearchRequest.searchType body)) eqn:P;
      [destruct (JS.stringifies (SearchRequest.searchValue body)) eqn:Q|];
      [| rewrite !search_unprintable by auto; split; reflexivity | rewrite !search_unprintable by auto; split; reflexivity].
    rewrite (search_ok d1 body pkgs T V P Q E1), (search_ok d2 body pkgs T V P Q E2).
    cbn [fst snd calls].
    assert (flat_map (contribution d1 (SearchRequest.searchType body)
                                      (SearchRequest.searchValue body)) pkgs =
            flat_map (contribution d2 (SearchRequest.searchType body)
                                      (SearchRequest.searchValue body)) pkgs) as ->.
    { apply flat_map_agree. intros pkg I. apply contribution_agree. now apply A. }
    split; reflexivity.
  - rewrite !search_invalid by auto. split; reflexivity.
  - rewrite !search_invalid by auto. split; reflexivity.
Qed.

(** The demo tenant, where package C cannot be read, against the tenant
    where C is read and has no collection. *)
Lemma unreadable_package_looks_empty_witness :
  response (post_api_search Demo.tenant (Demo.search "group" "g1")) =
  response (post_api_search repaired_tenant (Demo.search "group" "g1")).
Proof.
  apply (unreadable_package_looks_empty Demo.tenant repaired_tenant
           (Demo.search "group" "g1") Demo.catalog eq_refl eq_refl).
  intros pkg [<- | [<- | [<- | [<- | [<- | []]]]]].
  - left. reflexivity.
  - left. reflexivity.
  - right. exists (GraphError "Forbidden"), (Demo.details "C" "Package C" None).
    repeat split. left. reflexivity.
  - left. reflexivity.
  - left. reflexivity.
Defined.

(** X7. On an empty catalog a search whose two fields are truthy and
    convert to strings (as every non-empty string does) answers 200 with no
    record, echoing the two fields, after the single catalog request. *)
Theorem search_empty_catalog (d : Directory) (body : SearchRequest.t) :
  JS.truthy (SearchRequest.searchType body) = true ->
  JS.truthy (SearchRequest.searchValue body) = true ->
  JS.stringifies (SearchRequest.searchType body) = true ->
  JS.stringifies (SearchRequest.searchValue body) = true ->
  accessPackages d = inr [] ->
  response (post_api_search d body) =
    inr {| status := 200;
           json := SearchBody [] (SearchRequest.searchType body)
                                 (SearchRequest.searchValue body) |} /\
  sent (post_api_search d body) = [ListAccessPackages].
Proof.
  intros T V P Q E. unfold response, sent. rewrite (search_ok d body [] T V P Q E).
  split; reflexivity.
Qed.

Lemma search_empty_catalog_witness :
  sent (post_api_search (with_catalog Demo.tenant []) (Demo.search "group" "g1")) =
    [ListAccessPackages].
Proof.
  exact (proj2 (search_empty_catalog (with_catalog Demo.tenant [])
                  (Demo.search "group" "g1")
                  eq_refl eq_refl eq_refl eq_refl eq_refl)).
Defined.

Lemma mappedOriginSystem_inj st1 st2 tag :
  mappedOriginSystem st1 tag -> mappedOriginSystem st2 tag -> st1 = st2.
Proof. intros [] H; inversion H; reflexivity. Qed.

Lemma found_record_search d body r :
  In r (found (response (post_api_search d body))) ->
  resourceId r = SearchRequest.searchValue body /\
  exists tag,
    mappedOriginSystem (SearchRequest.searchType body) tag /\
    resourceType r = JS.Str tag.
Proof.
  intros H. apply found_inv in H. destruct H as (pkgs & pkg & _ & _ & H).
  apply contribution_inv in H.
  destruct H as (pd & rss & rs & s & _ & _ & _ & _ & M & ->).
  apply isMatch_spec in M. destruct M as (s' & tag & [= <-] & T & Q & O).
  split; [now apply strict_eq_true_eq|].
  exists tag. split; [now apply originSystemFor_mapped | exact O].
Qed.

(** X8. A record tells which search found it: if the same record is in the
    results of two searches, over any two directories, the two requests have
    the same [searchType] and the same [searchValue].  So no resource is
    reported under two search types or two identifiers. *)
Theorem record_identifies_search
    (d1 d2 : Directory) (body1 body2 : SearchRequest.t) (r : MatchRecord) :
  In r (found (response (post_api_search d1 body1))) ->
  In r (found (response (post_api_search d2 body2))) ->
  SearchRequest.searchType body1 = SearchRequest.searchType body2 /\
  SearchRequest.searchValue body1 = SearchRequest.searchValue body2.
Proof.
  intros H1 H2.
  apply found_record_search in H1. destruct H1 as (I1 & tag1 & M1 & T1).
  apply found_record_search in H2. destruct H2 as (I2 & tag2 & M2 & T2).
  split.
  - rewrite T1 in T2. injection T2 as <-.
    exact (mappedOriginSystem_inj _ _ _ M1 M2).
  - now rewrite <- I1, <- I2.
Qed.

Lemma record_identifies_search_witness :
  SearchRequest.searchType (Demo.search "group" "g1") = JS.Str "group" /\
  SearchRequest.searchValue (Demo.search "group" "g1") = JS.Str "g1".
Proof.
  apply (record_identifies_search Demo.tenant Demo.tenant
           (Demo.search "group" "g1")
           {| SearchRequest.searchType := JS.Str "group";
              SearchRequest.searchValue := JS.Str "g1" |}
           (matchRecord (Demo.details "A" "Package A" None) Demo.salesGroup
                        (Some Demo.member))).
  - cbn. auto.
  - cbn. auto.
Defined.

Lemma contribution_by_id d searchType searchValue pkg1 pkg2 :
  PackageSummary.id pkg1 = PackageSummary.id pkg2 ->
  contribution d searchType searchValue pkg1 = contribution d searchType searchValue pkg2.
Proof. unfold contribution. now intros ->. Qed.

Lemma flat_map_contribution_by_id d searchType searchValue pkgs1 pkgs2 :
  map PackageSummary.id pkgs1 = map PackageSummary.id pkgs2 ->
  flat_map (contribution d searchType searchValue) pkgs1 =
  flat_map (contribution d searchType searchValue) pkgs2.
Proof.
  revert pkgs2. induction pkgs1 as [|p1 rest1 IH]; intros [|p2 rest2]; cbn [map];
    try discriminate; [reflexivity|].
  intros [= I R]. cbn [flat_map].
  now rewrite (contribution_by_id d _ _ p1 p2 I), (IH rest2 R).
Qed.

(** X9. Of a catalog entry the search reads the [id] only: two catalogs
    that list the same ids in the same order, whatever display names they
    carry, get the same response and cause the same requests (the names in the
    records come from the package details). *)
Theorem search_reads_only_catalog_ids
    (d : Directory) (body : SearchRequest.t) (pkgs1 pkgs2 : list PackageSummary.t) :
  map PackageSummary.id pkgs1 = map PackageSummary.id pkgs2 ->
  response (post_api_search (with_catalog d pkgs1) body) =
    response (post_api_search (with_catalog d pkgs2) body) /\
  sent (post_api_search (with_catalog d pkgs1) body) =
    sent (post_api_search (with_catalog d pkgs2) body).
Proof.
  intros I. unfold response, sent.
  destruct (JS.truthy (SearchRequest.searchType body)) eqn:T;
    [destruct (JS.truthy (SearchRequest.searchValue body)) eqn:V|].
  - destruct (JS.stringifies (SearchRequest.searchType body)) eqn:P;
      [destruct (JS.stringifies (SearchRequest.searchValue body)) eqn:Q|];
      [| rewrite !search_unprintable by auto; split; reflexivity | rewrite !search_unprintable by auto; split; reflexivity].
    rewrite (search_ok (with_catalog d pkgs1) body pkgs1 T V P Q eq_refl).
    rewrite (search_ok (with_catalog d pkgs2) body pkgs2 T V P Q eq_refl).
    cbn [fst snd calls]. unfold detailRequests.
    change (contribution (with_catalog d pkgs1)) with (contribution d).
    change (contribution (with_catalog d pkgs2)) with (contribution d).
    rewrite (flat_map_contribution_by_id d _ _ pkgs1 pkgs2 I).
    rewrite <- (map_map PackageSummary.id GetAccessPackage pkgs1).
    rewrite <- (map_map PackageSummary.id GetAccessPackage pkgs2).
    rewrite I. split; reflexivity.
  - rewrite !search_invalid by auto. split; reflexivity.
  - rewrite !search_invalid by auto. split; reflexivity.
Qed.

(** Package A listed under another display name. *)
Lemma search_reads_only_catalog_ids_witness :
  response (post_api_search (with_catalog Demo.tenant [Demo.summary "A" "Package A"])
                            (Demo.search "group" "g1")) =
  response (post_api_search (with_catalog Demo.tenant [Demo.summary "A" "Renamed"])
                            (Demo.search "group" "g1")).
Proof.
  exact (proj1 (search_reads_only_catalog_ids Demo.tenant (Demo.search "group" "g1")
                  [Demo.summary "A" "Package A"] [Demo.summary "A" "Renamed"] eq_refl)).
Defined.

(** ** The resolvers as a whole *)

(** X10. The group resolver in full: a falsy [groupName] (absent, null,
    empty) gives 400 and nothing is sent; a truthy one that does not convert
    to a string (an object with an own [toString] property) gives 500 and
    nothing is sent; otherwise exactly one request is sent, the group query
    for that name, and the status is 500 when the directory rejects it, 404
    when it answers no group, 200 otherwise. *)
Theorem resolveGroup_status_and_requests (d : Directory) (body : GroupRequest.t) :
  status_of (response (post_api_resolveGroup d body)) =
    Some (if negb (JS.truthy (GroupRequest.groupName body)) then 400
          else if negb (JS.stringifies (GroupRequest.groupName body)) then 500
          else match groups d (GroupRequest.groupName body) with
               | inl _ => 500
               | inr [] => 404
               | inr (_ :: _) => 200
               end) /\
  sent (post_api_resolveGroup d body) =
    (if JS.truthy (GroupRequest.groupName body)
        && JS.stringifies (GroupRequest.groupName body)
     then [ListGroups (GroupRequest.groupName body)]
     else []).
Proof.
  unfold response, sent.
  destruct (JS.truthy (GroupRequest.groupName body)) eqn:T.
  - destruct (JS.stringifies (GroupRequest.groupName body)) eqn:P;
      [| rewrite (resolveGroup_unprintable d body T P); split; reflexivity].
    destruct (groups d (GroupRequest.groupName body)) as [e|gs] eqn:E.
    + rewrite (resolveGroup_failed d body e T P E). split; reflexivity.
    + rewrite (resolveGroup_run d body gs T P E). destruct gs; split; reflexivity.
  - rewrite (resolveGroup_invalid d body T). split; reflexivity.
Qed.

(** X11. The application resolver in full: a falsy [applicationName] gives
    400 and nothing is sent; a truthy one that does not convert to a string
    (an object with an own [toString] property) gives 500 and nothing is sent;
    otherwise exactly one request is sent, the service-principal query for
    that prefix, and the status is 500 when the directory rejects it, 404 when
    it answers no principal, 200 otherwise. *)
Theorem resolveApplication_status_and_requests
    (d : Directory) (body : ApplicationRequest.t) :
  status_of (response (post_api_resolveApplication d body)) =
    Some (if negb (JS.truthy (ApplicationRequest.applicationName body)) then 400
          else if negb (JS.stringifies (ApplicationRequest.applicationName body))
          then 500
          else match servicePrincipals d (ApplicationRequest.applicationName body) with
               | inl _ => 500
               | inr [] => 404
               | inr (_ :: _) => 200
               end) /\
  sent (post_api_resolveApplication d body) =
    (if JS.truthy (ApplicationRequest.applicationName body)
        && JS.stringifies (ApplicationRequest.applicationName body)
     then [ListServicePrincipals (ApplicationRequest.applicationName body)]
     else []).
Proof.
  unfold response, sent.
  destruct (JS.truthy (ApplicationRequest.applicationName body)) eqn:T.
  - destruct (JS.stringifies (ApplicationRequest.applicationName body)) eqn:P;
      [| rewrite (resolveApplication_unprintable d body T P); split; reflexivity].
    destruct (servicePrincipals d (ApplicationRequest.applicationName body))
      as [e|sps] eqn:E.
    + rewrite (resolveApplication_failed d body e T P E). split; reflexivity.
    + rewrite (resolveApplication_run d body sps T P E).
      destruct sps as [|a [|b rest]]; split; reflexivity.
  - rewrite (resolveApplication_invalid d body T). split; reflexivity.
Qed.

(** X12. A failure before or at the directory query is fatal to a resolver.
    For a truthy name that converts to a string (as every non-empty string
    does), when the directory rejects the query with [e], the group resolver
    answers 500 {error: "Failed to resolve group", details: e.message} and the
    application resolver 500 {error: "Failed to resolve application", details:
    e.message}.  For a truthy name that does not convert, the answer is the
    same 500 with the TypeError's message as details, and no query is sent. *)
Theorem resolver_upstream_failure
    (d : Directory) (gbody : GroupRequest.t) (abody : ApplicationRequest.t) (e : exn) :
  (JS.truthy (GroupRequest.groupName gbody) = true ->
   JS.stringifies (GroupRequest.groupName gbody) = true ->
   groups d (GroupRequest.groupName gbody) = inl e ->
   response (post_api_resolveGroup d gbody) =
     inr {| status := 500;
            json := ErrorDetailsBody "Failed to resolve group" (message e) |}) /\
  (JS.truthy (ApplicationRequest.applicationName abody) = true ->
   JS.stringifies (ApplicationRequest.applicationName abody) = true ->
   servicePrincipals d (ApplicationRequest.applicationName abody) = inl e ->
   response (post_api_resolveApplication d abody) =
     inr {| status := 500;
            json := ErrorDetailsBody "Failed to resolve application" (message e) |}) /\
  (JS.truthy (GroupRequest.groupName gbody) = true ->
   JS.stringifies (GroupRequest.groupName gbody) = false ->
   response (post_api_resolveGroup d gbody) =
     inr {| status := 500;
            json := ErrorDetailsBody "Failed to resolve group"
                                     "Cannot convert object to primitive value" |} /\
   sent (post_api_resolveGroup d gbody) = []) /\
  (JS.truthy (ApplicationRequest.applicationName abody) = true ->
   JS.stringifies (ApplicationRequest.applicationName abody) = false ->
   response (post_api_resolveApplication d abody) =
     inr {| status := 500;
            json := ErrorDetailsBody "Failed to resolve application"
                                     "Cannot convert object to primitive value" |} /\
   sent (post_api_resolveApplication d abody) = []).
Proof.
  unfold response, sent. split; [|split; [|split]].
  - intros T P E. now rewrite (resolveGroup_failed d gbody e T P E).
  - intros T P E. now rewrite (resolveApplication_failed d abody e T P E).
  - intros T P. rewrite (resolveGroup_unprintable d gbody T P). split; reflexivity.
  - intros T P. rewrite (resolveApplication_unprintable d abody T P).
    split; reflexivity.
Qed.

Lemma resolver_upstream_failure_witness :
  response (post_api_resolveGroup Demo.offline
              {| GroupRequest.groupName := JS.Str "Team Alpha" |}) =
    inr {| status := 500;
           json := ErrorDetailsBody "Failed to resolve group" "Service unavailable" |} /\
  response (post_api_resolveApplication Demo.offline
              {| ApplicationRequest.applicationName := JS.Str "Contoso" |}) =
    inr {| status := 500;
           json := ErrorDetailsBody "Failed to resolve application"
                                    "Service unavailable" |} /\
  sent (post_api_resolveGroup Demo.tenant {| GroupRequest.groupName := odd_object |}) = [].
Proof.
  destruct (resolver_upstream_failure Demo.offline
              {| GroupRequest.groupName := JS.Str "Team Alpha" |}
              {| ApplicationRequest.applicationName := JS.Str "Contoso" |}
              (GraphError "Service unavailable")) as (G & A & _).
  destruct (resolver_upstream_failure Demo.tenant
              {| GroupRequest.groupName := odd_object |}
              {| ApplicationRequest.applicationName := odd_object |}
              (GraphError "Service unavailable")) as (_ & _ & U & _).
  split; [exact (G eq_refl eq_refl eq_refl)|].
  split; [exact (A eq_refl eq_refl eq_refl)|].
  exact (proj2 (U eq_refl eq_refl)).
Defined.

(** X13. What the shape of the application resolver's answer tells its
    caller: a {multiple: true, applications} body always lists at least two
    applications, one per service principal the directory returned, and a
    single-application body means the directory returned exactly that one
    principal. *)
Theorem resolveApplication_shape
    (d : Directory) (body : ApplicationRequest.t) (r : Response) :
  response (post_api_resolveApplication d body) = inr r ->
  (forall applications, json r = MultipleBody applications ->
     status r = 200 /\ 2 <= length applications /\
     exists sps,
       servicePrincipals d (ApplicationRequest.applicationName body) = inr sps /\
       applications = map toApplication sps) /\
  (forall a, json r = ApplicationBody a ->
     status r = 200 /\
     exists sp,
       servicePrincipals d (ApplicationRequest.applicationName body) = inr [sp] /\
       a = toApplication sp).
Proof.
  unfold response.
  destruct (JS.truthy (ApplicationRequest.applicationName body)) eqn:T.
  - destruct (JS.stringifies (ApplicationRequest.applicationName body)) eqn:P;
      [| rewrite (resolveApplication_unprintable d body T P); intros [= <-];
         split; intros x [=]].
    destruct (servicePrincipals d (ApplicationRequest.applicationName body))
      as [e|sps] eqn:E.
    + rewrite (resolveApplication_failed d body e T P E). intros [= <-].
      split; intros x [=].
    + rewrite (resolveApplication_run d body sps T P E).
      destruct sps as [|sp [|sp' rest]]; intros [= <-].
      * split; intros x [=].
      * split; intros x [= <-]. split; [reflexivity|]. exists sp. auto.
      * split; intros x [= <-]. split; [reflexivity|]. split; [cbn; lia|].
        exists (sp :: sp' :: rest). auto.
  - rewrite (resolveApplication_invalid d body T). intros [= <-].
    split; intros x [=].
Qed.

Lemma resolveApplication_shape_witness :
  exists sp,
    servicePrincipals Demo.tenant (JS.Str "Contoso P") = inr [sp] /\
    toApplication Demo.contosoPortal = toApplication sp.
Proof.
  exact (proj2 (proj2 (resolveApplication_shape Demo.tenant
                         {| ApplicationRequest.applicationName := JS.Str "Contoso P" |}
                         {| status := 200;
                            json := ApplicationBody (toApplication Demo.contosoPortal) |}
                         eq_refl)
                      (toApplication Demo.contosoPortal) eq_refl)).
Defined.

(** ** The environment *)

(** X14. The health endpoint reports the environment the Graph client is
    built for: it answers 200 {status: "healthy"} with environment "Azure App
    Service" exactly when [getGraphClient] uses the managed identity, and
    "Local Development" exactly when it uses the default credential; an unset
    or empty WEBSITE_INSTANCE_ID is local.  The client always asks for the
    Graph default scope. *)
Theorem health_agrees_with_credential (env : Env.t) :
  fst (get_api_health env) = 200 /\
  health_status (snd (get_api_health env)) = "healthy" /\
  (environment (snd (get_api_health env)) = "Azure App Service" <->
   credential (getGraphClient env) = ManagedIdentityCredential) /\
  (environment (snd (get_api_health env)) = "Local Development" <->
   credential (getGraphClient env) = DefaultAzureCredential) /\
  (credential (getGraphClient env) = DefaultAzureCredential <->
   Env.WEBSITE_INSTANCE_ID env = None \/ Env.WEBSITE_INSTANCE_ID env = Some EmptyString) /\
  scopes (getGraphClient env) = ["https://graph.microsoft.com/.default"].
Proof.
  unfold get_api_health, getGraphClient. cbn [fst snd health_status environment
    credential scopes].
  destruct env as [[s|]]; cbn [Env.WEBSITE_INSTANCE_ID Env.read JS.truthy].
  - destruct s as [|c s]; cbn.
    + repeat split; try discriminate; auto.
    + repeat split; try discriminate; auto. intros [H | H]; discriminate H.
  - repeat split; try discriminate; auto.
Qed.
